(** * AudioRecordingProcessor: the recording tap of the voice-agent pipeline

    A shallow embedding of [app/recording_processor.py] and the properties of
    its frame routing and recorder lifecycle.

    The processor is a Pipecat [FrameProcessor].  Every effect it has on the
    outside world is a call on a collaborator: the logger, the parent class,
    [push_frame], and the [AudioRecorder].  A method is therefore modelled as
    a function from the state of [self] to an outcome (returned or raised),
    the new state of [self], and the ordered list of collaborator calls it
    made. *)

From Stdlib Require Import List ZArith Bool String Strings.Byte Lia.
Import ListNotations.

Local Open Scope string_scope.
Local Open Scope list_scope.

(** ** Values *)

(** Python [bytes]. *)
Definition bytes := list byte.

(** Python [len] on [bytes]: an unbounded integer. *)
Definition len (b : bytes) : Z := Z.of_nat (List.length b).

(** Truthiness of an [Optional] object reference: [None] is falsy, an object
    that defines neither [__bool__] nor [__len__] is truthy. *)
Definition truthy {A : Type} (o : option A) : bool :=
  match o with Some _ => true | None => false end.

(** [x or default] on an [Optional[str]]: [None] and the empty string are
    falsy. *)
Definition str_or (x : option string) (default : string) : string :=
  match x with
  | None => default
  | Some EmptyString => default
  | Some s => s
  end.

(** ** Pipecat frames

    The classes imported from [pipecat.frames.frames].  [InputAudioRawFrame]
    and [OutputAudioRawFrame] derive from [AudioRawFrame]; [OtherFrame]
    stands for every class outside this family. *)

Inductive FrameClass : Type :=
| StartFrame
| EndFrame
| AudioRawFrame
| InputAudioRawFrame
| OutputAudioRawFrame
| OtherFrame (name : string).

Inductive Frame : Type :=
| MkStartFrame
| MkEndFrame
| MkAudioRawFrame (audio : bytes)
| MkInputAudioRawFrame (audio : bytes)
| MkOutputAudioRawFrame (audio : bytes)
| MkOtherFrame (name : string).

Inductive FrameDirection : Type := DOWNSTREAM | UPSTREAM.

(** [type(frame)]. *)
Definition type_of (frame : Frame) : FrameClass :=
  match frame with
  | MkStartFrame => StartFrame
  | MkEndFrame => EndFrame
  | MkAudioRawFrame _ => AudioRawFrame
  | MkInputAudioRawFrame _ => InputAudioRawFrame
  | MkOutputAudioRawFrame _ => OutputAudioRawFrame
  | MkOtherFrame n => OtherFrame n
  end.

(** [cls.__name__]. *)
Definition class_name (c : FrameClass) : string :=
  match c with
  | StartFrame => "StartFrame"
  | EndFrame => "EndFrame"
  | AudioRawFrame => "AudioRawFrame"
  | InputAudioRawFrame => "InputAudioRawFrame"
  | OutputAudioRawFrame => "OutputAudioRawFrame"
  | OtherFrame n => n
  end.

Definition issubclass (c base : FrameClass) : bool :=
  match c, base with
  | StartFrame, StartFrame => true
  | EndFrame, EndFrame => true
  | AudioRawFrame, AudioRawFrame => true
  | InputAudioRawFrame, InputAudioRawFrame => true
  | InputAudioRawFrame, AudioRawFrame => true
  | OutputAudioRawFrame, OutputAudioRawFrame => true
  | OutputAudioRawFrame, AudioRawFrame => true
  | OtherFrame n, OtherFrame m => String.eqb n m
  | _, _ => false
  end.

Definition isinstance (frame : Frame) (c : FrameClass) : bool :=
  issubclass (type_of frame) c.

(** [isinstance(frame, (c1, c2, ...))]. *)
Definition isinstance_any (frame : Frame) (cs : list FrameClass) : bool :=
  existsb (isinstance frame) cs.

(** ** Collaborator calls *)

(** An [AudioRecorder] object, known by its reference: two processors that
    hold the same reference share the recorder. *)
Definition AudioRecorder := nat.

Inductive Level : Type := DEBUG | INFO.

(** The log lines of the module, one constructor per format string, with the
    interpolated values as arguments. *)
Inductive Message : Type :=
| MsgStartedRecording (client_id : string)
| MsgReceivedStartFrame
| MsgReceived (type_name : string) (nbytes : Z)
| MsgRecordingOutput (nbytes num_samples : Z) (type_name : string)
| MsgOutputInInputProcessor
| MsgRecordingInput (nbytes num_samples : Z)
| MsgInputInOutputProcessor
| MsgRecordingInputLegacy (nbytes num_samples : Z)
| MsgRecordingOutputLegacy (nbytes num_samples : Z)
| MsgStoppedRecording (client_id : string)
| MsgPushing (type_name : string).

Inductive Event : Type :=
| SuperInit
| NewAudioRecorder (r : AudioRecorder)
| StartRecording (r : AudioRecorder) (client_id : string)
| RecordInputAudio (r : AudioRecorder) (audio : bytes)
| RecordOutputAudio (r : AudioRecorder) (audio : bytes)
| StopRecording (r : AudioRecorder)
| Log (level : Level) (msg : Message)
| SuperProcessFrame (frame : Frame) (direction : FrameDirection)
| PushFrame (frame : Frame) (direction : FrameDirection).

Inductive Exception : Type := AttributeError.

Inductive Outcome (A : Type) : Type :=
| Returned (a : A)
| Raised (e : Exception).

Arguments Returned {A} a.
Arguments Raised {A} e.

(** ** The effect monad

    A computation over a mutable state [S] that makes collaborator calls and
    may raise.  The calls made before an exception stay in the trace. *)

Definition Eff (S A : Type) : Type := S -> Outcome A * S * list Event.

Definition ret {S A : Type} (a : A) : Eff S A :=
  fun s => (Returned a, s, []).

Definition bind {S A B : Type} (m : Eff S A) (k : A -> Eff S B) : Eff S B :=
  fun s =>
    match m s with
    | (Returned a, s1, t1) =>
        match k a s1 with
        | (o, s2, t2) => (o, s2, t1 ++ t2)
        end
    | (Raised e, s1, t1) => (Raised e, s1, t1)
    end.

Notation "x <- m ;; k" := (bind m (fun x => k))
  (at level 61, m at next level, right associativity).
Notation "m ;; k" := (bind m (fun _ => k))
  (at level 61, right associativity).

Definition emit {S : Type} (e : Event) : Eff S unit :=
  fun s => (Returned tt, s, [e]).

Definition raise {S A : Type} (e : Exception) : Eff S A :=
  fun s => (Raised e, s, []).

Definition get {S : Type} : Eff S S :=
  fun s => (Returned s, s, []).

Definition put {S : Type} (s : S) : Eff S unit :=
  fun _ => (Returned tt, s, []).

(** The three components of a finished computation. *)
Definition outcome_of {S A T : Type} (r : Outcome A * S * T) : Outcome A :=
  fst (fst r).
Definition state_of {S A T : Type} (r : Outcome A * S * T) : S :=
  snd (fst r).
Definition trace_of {S A T : Type} (r : Outcome A * S * T) : T :=
  snd r.

(** ** The processor *)

Record AudioRecordingProcessor : Type := {
  enable_recording : bool;
  client_id : string;
  record_input : bool;
  recorder : option AudioRecorder
}.

Definition set_recorder (self : AudioRecordingProcessor)
    (r : option AudioRecorder) : AudioRecordingProcessor :=
  {| enable_recording := enable_recording self;
     client_id := client_id self;
     record_input := record_input self;
     recorder := r |}.

(** The heap of recorder objects: the next reference that [AudioRecorder()]
    hands out. *)
Definition Heap := nat.

Definition new_AudioRecorder : Eff Heap AudioRecorder :=
  fun h => (Returned h, S h, [NewAudioRecorder h]).

Definition Method (A : Type) : Type := Eff AudioRecordingProcessor A.

Definition logger_debug (m : Message) : Method unit := emit (Log DEBUG m).
Definition logger_info (m : Message) : Method unit := emit (Log INFO m).

(** [FrameProcessor.process_frame] and [FrameProcessor.push_frame], the two
    primitives of the pipeline transport. *)
Definition super_process_frame (frame : Frame) (direction : FrameDirection)
  : Method unit := emit (SuperProcessFrame frame direction).
Definition push_frame (frame : Frame) (direction : FrameDirection)
  : Method unit := emit (PushFrame frame direction).

(** Modelled from the spec: the [AudioRecorder] class of
    [app/audio_recorder.py], which the sources do not include.  Its contract
    is four methods that return nothing and whose failures do not propagate
    to the caller, so a call [self.recorder.m(...)] is an event on the
    referenced recorder and returns; on [self.recorder = None] the attribute
    lookup raises. *)
Definition self_recorder (call : AudioRecorder -> Event) : Method unit :=
  self <- get ;;
  match recorder self with
  | Some r => emit (call r)
  | None => raise AttributeError
  end.

(** [frame.audio]: only the audio frames have the attribute. *)
Definition frame_audio (frame : Frame) : Method bytes :=
  match frame with
  | MkAudioRawFrame a | MkInputAudioRawFrame a | MkOutputAudioRawFrame a => ret a
  | _ => raise AttributeError
  end.

Definition type_name (frame : Frame) : string := class_name (type_of frame).

(** [AudioRecordingProcessor.__init__]. *)
Definition __init__ (enable_recording0 : bool) (client_id0 : option string)
    (record_input0 : bool) (shared_recorder : option AudioRecorder)
  : Eff Heap AudioRecordingProcessor :=
  emit SuperInit ;;
  let self := {| enable_recording := enable_recording0;
                 client_id := str_or client_id0 "unknown";
                 record_input := record_input0;
                 recorder := shared_recorder |} in
  if enable_recording self && negb (truthy (recorder self)) then
    r <- new_AudioRecorder ;;
    let self := set_recorder self (Some r) in
    emit (StartRecording r (client_id self)) ;;
    emit (Log INFO (MsgStartedRecording (client_id self))) ;;
    ret self
  else
    ret self.

(** [AudioRecordingProcessor.process_frame]. *)
Definition process_frame (frame : Frame) (direction : FrameDirection)
  : Method unit :=
  if isinstance frame StartFrame then
    logger_debug MsgReceivedStartFrame ;;
    super_process_frame frame direction ;;
    push_frame frame direction
  else
    self <- get ;;
    (if isinstance_any frame
          [AudioRawFrame; InputAudioRawFrame; OutputAudioRawFrame] then
       a <- frame_audio frame ;;
       logger_debug (MsgReceived (type_name frame) (len a)) ;;
       if truthy (recorder self) then
         audio_bytes <- frame_audio frame ;;
         let num_samples := (len audio_bytes / 2)%Z in
         if isinstance frame OutputAudioRawFrame then
           if negb (record_input self) then
             logger_info (MsgRecordingOutput (len audio_bytes) num_samples
                                             (type_name frame)) ;;
             self_recorder (fun r => RecordOutputAudio r audio_bytes)
           else
             logger_debug MsgOutputInInputProcessor
         else if isinstance frame InputAudioRawFrame then
           if record_input self then
             logger_info (MsgRecordingInput (len audio_bytes) num_samples) ;;
             self_recorder (fun r => RecordInputAudio r audio_bytes)
           else
             logger_debug MsgInputInOutputProcessor
         else if isinstance frame AudioRawFrame then
           if record_input self then
             logger_info (MsgRecordingInputLegacy (len audio_bytes) num_samples) ;;
             self_recorder (fun r => RecordInputAudio r audio_bytes)
           else
             logger_info (MsgRecordingOutputLegacy (len audio_bytes) num_samples) ;;
             self_recorder (fun r => RecordOutputAudio r audio_bytes)
         else
           ret tt
       else
         ret tt
     else if isinstance frame EndFrame && truthy (recorder self)
             && record_input self then
       self_recorder StopRecording ;;
       put (set_recorder self None) ;;
       logger_info (MsgStoppedRecording (client_id self))
     else
       ret tt) ;;
    logger_debug (MsgPushing (type_name frame)) ;;
    push_frame frame direction.

(** [AudioRecordingProcessor.cleanup]. *)
Definition cleanup : Method unit :=
  self <- get ;;
  if truthy (recorder self) && record_input self then
    self_recorder StopRecording ;;
    put (set_recorder self None)
  else
    ret tt.

(** ** Running a processor *)

(** What the pipeline asks of a processor: handle a frame, or clean up. *)
Inductive Action : Type :=
| Deliver (frame : Frame) (direction : FrameDirection)
| Cleanup.

Definition act (a : Action) : Method unit :=
  match a with
  | Deliver frame direction => process_frame frame direction
  | Cleanup => cleanup
  end.

(** The actions of a list performed in order; an exception ends the run. *)
Fixpoint perform (l : list Action) : Method unit :=
  match l with
  | [] => ret tt
  | a :: rest => act a ;; perform rest
  end.

Definition deliver (fd : Frame * FrameDirection) : Action :=
  Deliver (fst fd) (snd fd).

(** A stream of frames fed to [process_frame], one call per frame. *)
Definition feed (frames : list (Frame * FrameDirection)) : Method unit :=
  perform (map deliver frames).

(** ** Observations on a trace *)

Definition is_recorder_method (e : Event) : bool :=
  match e with
  | StartRecording _ _ | RecordInputAudio _ _
  | RecordOutputAudio _ _ | StopRecording _ => true
  | _ => false
  end.

Definition is_record_audio (e : Event) : bool :=
  match e with
  | RecordInputAudio _ _ | RecordOutputAudio _ _ => true
  | _ => false
  end.

Definition is_stop (e : Event) : bool :=
  match e with StopRecording _ => true | _ => false end.

Definition is_start (e : Event) : bool :=
  match e with StartRecording _ _ => true | _ => false end.

Definition is_log (e : Event) : bool :=
  match e with Log _ _ => true | _ => false end.

(** Everything that reaches a recorder, its construction included. *)
Definition touches_recorder (e : Event) : bool :=
  match e with
  | NewAudioRecorder _ => true
  | _ => is_recorder_method e
  end.

Definition recorder_calls (t : list Event) : list Event :=
  filter is_recorder_method t.
Definition record_calls (t : list Event) : list Event :=
  filter is_record_audio t.
Definition stop_calls (t : list Event) : list Event := filter is_stop t.
Definition start_calls (t : list Event) : list Event := filter is_start t.
Definition without_logs (t : list Event) : list Event :=
  filter (fun e => negb (is_log e)) t.

(** The frames handed to [push_frame], in call order. *)
Definition pushed (t : list Event) : list (Frame * FrameDirection) :=
  flat_map (fun e => match e with
                     | PushFrame f d => [(f, d)]
                     | _ => []
                     end) t.

(** The sample counts that appear in log lines. *)
Definition logged_samples (t : list Event) : list Z :=
  flat_map (fun e => match e with
                     | Log _ (MsgRecordingOutput _ n _)
                     | Log _ (MsgRecordingInput _ n)
                     | Log _ (MsgRecordingInputLegacy _ n)
                     | Log _ (MsgRecordingOutputLegacy _ n) => [n]
                     | _ => []
                     end) t.

(** The shape of a trace: which collaborator was called, on which object,
    with every byte string and every logged number erased. *)
Inductive Shape : Type :=
| ShRecordInput (r : AudioRecorder)
| ShRecordOutput (r : AudioRecorder)
| ShStop (r : AudioRecorder)
| ShLog (level : Level)
| ShSuper
| ShPush
| ShOther.

Definition shape (e : Event) : Shape :=
  match e with
  | RecordInputAudio r _ => ShRecordInput r
  | RecordOutputAudio r _ => ShRecordOutput r
  | StopRecording r => ShStop r
  | Log l _ => ShLog l
  | SuperProcessFrame _ _ => ShSuper
  | PushFrame _ _ => ShPush
  | _ => ShOther
  end.

(** ** The two-sided pipeline

    One processor before the OpenAI service and one after it.  Each action
    of a schedule goes to one side; the trace remembers which side made
    each call. *)

Inductive Side : Type := InputSide | OutputSide.

Record Pipeline : Type := {
  input_tap : AudioRecordingProcessor;
  output_tap : AudioRecordingProcessor
}.

Definition tap (s : Side) (p : Pipeline) : AudioRecordingProcessor :=
  match s with
  | InputSide => input_tap p
  | OutputSide => output_tap p
  end.

Definition set_tap (s : Side) (self : AudioRecordingProcessor) (p : Pipeline)
  : Pipeline :=
  match s with
  | InputSide => {| input_tap := self; output_tap := output_tap p |}
  | OutputSide => {| input_tap := input_tap p; output_tap := self |}
  end.

Fixpoint run (sched : list (Side * Action)) (p : Pipeline)
  : Outcome unit * Pipeline * list (Side * Event) :=
  match sched with
  | [] => (Returned tt, p, [])
  | (s, a) :: rest =>
      match act a (tap s p) with
      | (Returned _, self, t) =>
          match run rest (set_tap s self p) with
          | (o, p', t') => (o, p', map (pair s) t ++ t')
          end
      | (Raised e, self, t) => (Raised e, set_tap s self p, map (pair s) t)
      end
  end.

Definition side_eqb (a b : Side) : bool :=
  match a, b with
  | InputSide, InputSide | OutputSide, OutputSide => true
  | _, _ => false
  end.

(** The actions of a schedule that go to one side. *)
Definition project (s : Side) (sched : list (Side * Action)) : list Action :=
  map snd (filter (fun x => side_eqb (fst x) s) sched).

(** The calls of a pipeline trace made by one side. *)
Definition calls_of (s : Side) (t : list (Side * Event)) : list Event :=
  map snd (filter (fun x => side_eqb (fst x) s) t).

Definition stops_with_side (t : list (Side * Event)) : list (Side * Event) :=
  filter (fun x => is_stop (snd x)) t.

(** One side's share of a session: a StartFrame, the chunks, an EndFrame, and
    then [k] calls of [cleanup]. *)
Definition session (ds de : FrameDirection)
    (chunks : list (Frame * FrameDirection)) (k : nat) : list Action :=
  Deliver MkStartFrame ds :: map deliver chunks
    ++ [Deliver MkEndFrame de] ++ repeat Cleanup k.

(** A pipeline whose two taps hold the same recorder [r]. *)
Definition shares (p : Pipeline) (r : AudioRecorder) : Prop :=
  record_input (input_tap p) = true /\
  record_input (output_tap p) = false /\
  recorder (input_tap p) = Some r /\
  recorder (output_tap p) = Some r.

(** An action that asks for the recorder to be stopped. *)
Definition is_stopper (a : Action) : bool :=
  match a with
  | Deliver frame _ => isinstance frame EndFrame
  | Cleanup => true
  end.

(** A processor on the input side (before the OpenAI service) and one on the
    output side (after it). *)
Definition input_side (en : bool) (cid : string) (r : option AudioRecorder)
  : AudioRecordingProcessor :=
  {| enable_recording := en; client_id := cid;
     record_input := true; recorder := r |}.

Definition output_side (en : bool) (cid : string) (r : option AudioRecorder)
  : AudioRecordingProcessor :=
  {| enable_recording := en; client_id := cid;
     record_input := false; recorder := r |}.

(** The three ways to build an audio frame from its bytes. *)
Definition audio_constructors : list (bytes -> Frame) :=
  [MkAudioRawFrame; MkInputAudioRawFrame; MkOutputAudioRawFrame].

(** A session as the application wires it: both taps on recorder [0], and a
    schedule that interleaves the two sides. *)
Definition demo_pipeline : Pipeline :=
  {| input_tap := input_side true "unknown" (Some 0);
     output_tap := output_side true "unknown" (Some 0) |}.

Definition demo_schedule : list (Side * Action) :=
  [(InputSide, Deliver MkStartFrame DOWNSTREAM);
   (OutputSide, Deliver MkStartFrame DOWNSTREAM);
   (InputSide, Deliver (MkInputAudioRawFrame [x01; x02]) DOWNSTREAM);
   (OutputSide, Deliver (MkInputAudioRawFrame [x01; x02]) DOWNSTREAM);
   (OutputSide, Deliver (MkOutputAudioRawFrame [x03; x04]) DOWNSTREAM);
   (InputSide, Deliver MkEndFrame DOWNSTREAM);
   (OutputSide, Deliver MkEndFrame DOWNSTREAM);
   (OutputSide, Cleanup);
   (InputSide, Cleanup)].

(** ** The routing as a function of the frame

    What [process_frame] hands to the recorder [r] for one frame, written
    from the frame's class and the side of the processor alone; the runs
    are compared with it below. *)
Definition routed (rin : bool) (r : AudioRecorder) (frame : Frame)
  : list Event :=
  match frame with
  | MkOutputAudioRawFrame a => if rin then [] else [RecordOutputAudio r a]
  | MkInputAudioRawFrame a => if rin then [RecordInputAudio r a] else []
  | MkAudioRawFrame a =>
      if rin then [RecordInputAudio r a] else [RecordOutputAudio r a]
  | _ => []
  end.

(** The frames of a stream that come before its first EndFrame. *)
Fixpoint before_end (frames : list (Frame * FrameDirection))
  : list (Frame * FrameDirection) :=
  match frames with
  | [] => []
  | fd :: rest =>
      if isinstance (fst fd) EndFrame then [] else fd :: before_end rest
  end.

(** The frames of a run that are delivered before the first EndFrame or
    cleanup. *)
Fixpoint frames_before_stop (l : list Action) : list Frame :=
  match l with
  | [] => []
  | Deliver frame _ :: rest =>
      if isinstance frame EndFrame then []
      else frame :: frames_before_stop rest
  | Cleanup :: _ => []
  end.

(** The frames handed to the parent's [process_frame], in call order. *)
Definition supers (t : list Event) : list (Frame * FrameDirection) :=
  flat_map (fun e => match e with
                     | SuperProcessFrame f d => [(f, d)]
                     | _ => []
                     end) t.

Definition is_new (e : Event) : bool :=
  match e with NewAudioRecorder _ => true | _ => false end.

(** Two input-side processors on recorder [7]: a wiring the constructor
    accepts although only one side is meant to record input. *)
Definition twin_pipeline : Pipeline :=
  {| input_tap := input_side true "a" (Some 7);
     output_tap := input_side true "b" (Some 7) |}.

Definition twin_schedule : list (Side * Action) :=
  [(InputSide, Deliver MkEndFrame DOWNSTREAM);
   (OutputSide, Deliver (MkAudioRawFrame [x01]) DOWNSTREAM);
   (OutputSide, Cleanup)].

(** * Properties *)

(** ** Single steps *)

Ltac by_cases frame self :=
  destruct frame; destruct self as [en cid [|] [r|]]; cbn; try reflexivity.

Lemma process_frame_returns frame direction self :
  outcome_of (process_frame frame direction self) = Returned tt.
Proof. by_cases frame self. Qed.

Lemma cleanup_returns self : outcome_of (cleanup self) = Returned tt.
Proof. destruct self as [en cid [|] [r|]]; reflexivity. Qed.

Lemma act_returns a self : outcome_of (act a self) = Returned tt.
Proof.
  destruct a; [apply process_frame_returns | apply cleanup_returns].
Qed.

Lemma act_state a self :
  state_of (act a self) =
    if is_stopper a && truthy (recorder self) && record_input self
    then set_recorder self None else self.
Proof.
  destruct a as [frame direction|]; [by_cases frame self|].
  destruct self as [en cid [|] [r|]]; reflexivity.
Qed.

Lemma act_stop_calls a self :
  stop_calls (trace_of (act a self)) =
    match recorder self with
    | Some r => if is_stopper a && record_input self
                then [StopRecording r] else []
    | None => []
    end.
Proof.
  destruct a as [frame direction|]; [by_cases frame self|].
  destruct self as [en cid [|] [r|]]; reflexivity.
Qed.

Lemma act_detached a self :
  recorder self = None ->
  filter touches_recorder (trace_of (act a self)) = [].
Proof.
  destruct a as [frame direction|].
  - by_cases frame self; discriminate.
  - destruct self as [en cid [|] [r|]]; try reflexivity; discriminate.
Qed.

Lemma process_frame_pushed frame direction self :
  pushed (trace_of (process_frame frame direction self)) = [(frame, direction)].
Proof. by_cases frame self. Qed.

(** ** Runs *)

Lemma perform_cons a l self :
  perform (a :: l) self =
    (outcome_of (perform l (state_of (act a self))),
     state_of (perform l (state_of (act a self))),
     trace_of (act a self) ++ trace_of (perform l (state_of (act a self)))).
Proof.
  pose proof (act_returns a self) as Hret.
  cbn [perform]. unfold bind.
  destruct (act a self) as [[o s] t]. cbn in Hret. subst o.
  cbn [state_of trace_of fst snd].
  destruct (perform l s) as [[o' s'] t']. reflexivity.
Qed.

Lemma perform_returns l : forall self,
  outcome_of (perform l self) = Returned tt.
Proof.
  induction l as [|a l IH]; intros self; [reflexivity|].
  rewrite perform_cons. cbn [outcome_of fst]. apply IH.
Qed.

Lemma perform_app l1 l2 : forall self,
  state_of (perform (l1 ++ l2) self)
    = state_of (perform l2 (state_of (perform l1 self))) /\
  trace_of (perform (l1 ++ l2) self)
    = trace_of (perform l1 self)
        ++ trace_of (perform l2 (state_of (perform l1 self))).
Proof.
  induction l1 as [|a l1 IH]; intros self; [split; reflexivity|].
  cbn [app]. rewrite !perform_cons. cbn [state_of trace_of fst snd].
  destruct (IH (state_of (act a self))) as [Hs Ht].
  rewrite Hs, Ht, app_assoc. split; reflexivity.
Qed.

Lemma perform_detached l : forall self,
  recorder self = None ->
  state_of (perform l self) = self /\
  filter touches_recorder (trace_of (perform l self)) = [].
Proof.
  induction l as [|a l IH]; intros self Hnone; [split; reflexivity|].
  rewrite perform_cons. cbn [state_of trace_of fst snd].
  assert (Hs : state_of (act a self) = self).
  { rewrite act_state, Hnone. cbn. now rewrite andb_false_r. }
  rewrite Hs. destruct (IH self Hnone) as [IHs IHt].
  split; [exact IHs|].
  rewrite filter_app, IHt, (act_detached a self Hnone). reflexivity.
Qed.

Lemma recorder_calls_touch t :
  filter touches_recorder t = [] -> recorder_calls t = [].
Proof.
  unfold recorder_calls.
  induction t as [|e t IH]; [reflexivity|].
  cbn [filter]. destruct e; cbn; try discriminate; exact IH.
Qed.

Lemma stop_calls_touch t :
  filter touches_recorder t = [] -> stop_calls t = [].
Proof.
  unfold stop_calls.
  induction t as [|e t IH]; [reflexivity|].
  cbn [filter]. destruct e; cbn; try discriminate; exact IH.
Qed.

Lemma perform_output_side l : forall self,
  record_input self = false ->
  state_of (perform l self) = self /\
  stop_calls (trace_of (perform l self)) = [].
Proof.
  induction l as [|a l IH]; intros self Hout; [split; reflexivity|].
  rewrite perform_cons. cbn [state_of trace_of fst snd].
  assert (Hs : state_of (act a self) = self).
  { rewrite act_state, Hout. now rewrite andb_false_r. }
  rewrite Hs. destruct (IH self Hout) as [IHs IHt].
  split; [exact IHs|].
  unfold stop_calls in *. rewrite filter_app, IHt.
  fold (stop_calls (trace_of (act a self))).
  rewrite act_stop_calls, Hout, andb_false_r.
  destruct (recorder self); reflexivity.
Qed.

Lemma perform_input_side l : forall self r,
  record_input self = true ->
  recorder self = Some r ->
  stop_calls (trace_of (perform l self)) =
    (if existsb is_stopper l then [StopRecording r] else []) /\
  recorder (state_of (perform l self)) =
    (if existsb is_stopper l then None else Some r).
Proof.
  induction l as [|a l IH]; intros self r Hin Hrec; [split; [reflexivity|exact Hrec]|].
  rewrite perform_cons. cbn [state_of trace_of fst snd existsb].
  unfold stop_calls. rewrite filter_app.
  fold (stop_calls (trace_of (act a self))).
  fold (stop_calls (trace_of (perform l (state_of (act a self))))).
  rewrite act_stop_calls, act_state, Hrec, Hin.
  cbn [truthy]. rewrite !andb_true_r.
  destruct (is_stopper a); cbn [orb].
  - destruct (perform_detached l (set_recorder self None) eq_refl) as [Hs Ht].
    rewrite Hs. split; [|reflexivity].
    now rewrite (stop_calls_touch _ Ht).
  - exact (IH self r Hin Hrec).
Qed.

Lemma feed_cons frame direction frames self :
  feed ((frame, direction) :: frames) self =
    (outcome_of (feed frames (state_of (process_frame frame direction self))),
     state_of (feed frames (state_of (process_frame frame direction self))),
     trace_of (process_frame frame direction self)
       ++ trace_of (feed frames (state_of (process_frame frame direction self)))).
Proof. unfold feed. cbn [map]. apply perform_cons. Qed.

(** ** Construction *)

(** C9: the constructor builds a recorder of its own and starts it, once and
    with the processor's client id, exactly when recording is enabled and no
    shared recorder was passed; a shared recorder is adopted as it is, with
    no call on it. *)
Theorem C9_constructor_starts_own_recorder
    (en : bool) (cid : option string) (rin : bool)
    (shared : option AudioRecorder) (heap : Heap) :
  let built := __init__ en cid rin shared heap in
  let sid := str_or cid "unknown" in
  built =
    (if en && negb (truthy shared)
     then (Returned {| enable_recording := en; client_id := sid;
                       record_input := rin; recorder := Some heap |},
           S heap,
           [SuperInit; NewAudioRecorder heap; StartRecording heap sid;
            Log INFO (MsgStartedRecording sid)])
     else (Returned {| enable_recording := en; client_id := sid;
                       record_input := rin; recorder := shared |},
           heap, [SuperInit]))
  /\ filter touches_recorder (trace_of built) =
       (if en && negb (truthy shared)
        then [NewAudioRecorder heap; StartRecording heap sid] else [])
  /\ (List.length (start_calls (trace_of built)) = 1
      <-> en = true /\ shared = None)
  /\ (forall r, shared = Some r ->
        outcome_of built = Returned {| enable_recording := en; client_id := sid;
                                       record_input := rin; recorder := Some r |}
        /\ recorder_calls (trace_of built) = []).
Proof.
  destruct en, shared as [r0|]; cbn; repeat split;
    try discriminate; try reflexivity; try tauto;
    try (intros [? ?]; discriminate);
    try congruence.
Qed.

(** ** Frame handling *)

(** C8: a StartFrame goes to the parent class first and is then pushed on
    unchanged; no recorder method is called and [self] stays as it was. *)
Theorem C8_start_frame (direction : FrameDirection)
    (self : AudioRecordingProcessor) :
  let result := process_frame MkStartFrame direction self in
  result = (Returned tt, self,
            [Log DEBUG MsgReceivedStartFrame;
             SuperProcessFrame MkStartFrame direction;
             PushFrame MkStartFrame direction])
  /\ without_logs (trace_of result) =
       [SuperProcessFrame MkStartFrame direction;
        PushFrame MkStartFrame direction]
  /\ filter touches_recorder (trace_of result) = []
  /\ recorder (state_of result) = recorder self.
Proof. repeat split. Qed.

(** C2: whatever the configuration, the frames handed to [push_frame] are
    the frames received: as many, in the same order, each with its payload
    and its direction, and the run returns. *)
Theorem C2_pass_through (frames : list (Frame * FrameDirection)) :
  forall self : AudioRecordingProcessor,
    outcome_of (feed frames self) = Returned tt
    /\ pushed (trace_of (feed frames self)) = frames
    /\ List.length (pushed (trace_of (feed frames self))) = List.length frames.
Proof.
  induction frames as [|[frame direction] frames IH]; intros self.
  - repeat split.
  - destruct (IH (state_of (process_frame frame direction self)))
      as [Hret [Hpush _]].
    assert (Hall : pushed (trace_of (feed ((frame, direction) :: frames) self))
                   = (frame, direction) :: frames).
    { rewrite feed_cons. cbn [trace_of snd]. unfold pushed.
      rewrite flat_map_app.
      fold (pushed (trace_of (process_frame frame direction self))).
      fold (pushed (trace_of
              (feed frames (state_of (process_frame frame direction self))))).
      now rewrite process_frame_pushed, Hpush. }
    split; [|split].
    + rewrite feed_cons. exact Hret.
    + exact Hall.
    + now rewrite Hall.
Qed.

(** C3: a chunk of the other side is not recorded.  An output-side processor
    with a recorder makes no recorder call on an InputAudioRawFrame, and an
    input-side processor makes none on an OutputAudioRawFrame. *)
Theorem C3_direction_isolation (en : bool) (cid : string) (r : AudioRecorder)
    (audio : bytes) (direction : FrameDirection) :
  recorder_calls
    (trace_of (process_frame (MkInputAudioRawFrame audio) direction
                 (output_side en cid (Some r)))) = []
  /\ recorder_calls
       (trace_of (process_frame (MkOutputAudioRawFrame audio) direction
                    (input_side en cid (Some r)))) = [].
Proof. split; reflexivity. Qed.

(** C4: a plain AudioRawFrame is recorded by the side of the processor that
    receives it: as input audio on the input side, as output audio
    otherwise, with the bytes of the frame. *)
Theorem C4_legacy_chunk (self : AudioRecordingProcessor) (r : AudioRecorder)
    (audio : bytes) (direction : FrameDirection) :
  recorder self = Some r ->
  recorder_calls
    (trace_of (process_frame (MkAudioRawFrame audio) direction self)) =
    [if record_input self
     then RecordInputAudio r audio
     else RecordOutputAudio r audio].
Proof.
  destruct self as [en cid [|] [r0|]]; cbn; intros Hr;
    inversion Hr; subst; reflexivity.
Qed.

Lemma C4_legacy_chunk_witness :
  recorder (output_side true "kitchen" (Some 3)) = Some 3
  /\ recorder_calls
       (trace_of (process_frame (MkAudioRawFrame [x01; x02; x03]) DOWNSTREAM
                    (output_side true "kitchen" (Some 3))))
     = [RecordOutputAudio 3 [x01; x02; x03]].
Proof.
  split; [reflexivity|].
  exact (C4_legacy_chunk (output_side true "kitchen" (Some 3)) 3
           [x01; x02; x03] DOWNSTREAM eq_refl).
Defined.

(** C1, as the code has it: a processor built with recording disabled and
    without a shared recorder has no recorder, and neither its construction,
    nor any stream of frames, nor its cleanup reaches one. *)
Theorem C1_disabled_without_shared_recorder
    (cid : option string) (rin : bool) (heap : Heap)
    (frames : list (Frame * FrameDirection)) :
  let built := __init__ false cid rin None heap in
  let self := {| enable_recording := false; client_id := str_or cid "unknown";
                 record_input := rin; recorder := None |} in
  outcome_of built = Returned self
  /\ filter touches_recorder (trace_of built) = []
  /\ outcome_of (feed frames self) = Returned tt
  /\ filter touches_recorder (trace_of (feed frames self)) = []
  /\ filter touches_recorder
       (trace_of (cleanup (state_of (feed frames self)))) = [].
Proof.
  intros built self.
  destruct (perform_detached (map deliver frames) self eq_refl) as [Hs Ht].
  repeat split.
  - apply perform_returns.
  - exact Ht.
  - unfold feed. rewrite Hs. destruct rin; reflexivity.
Qed.

(** C1 fails when a shared recorder is passed: the constructor keeps the
    reference although recording is disabled, and the frames are recorded
    and the recorder stopped through it. *)
Lemma C1_shared_recorder_used_when_disabled :
  __init__ false None true (Some 0) 1 =
    (Returned (input_side false "unknown" (Some 0)), 1, [SuperInit])
  /\ recorder_calls
       (trace_of (feed [(MkAudioRawFrame [x01; x02], DOWNSTREAM);
                        (MkEndFrame, DOWNSTREAM)]
                       (input_side false "unknown" (Some 0))))
     = [RecordInputAudio 0 [x01; x02]; StopRecording 0]
  /\ recorder_calls
       (trace_of (feed [(MkAudioRawFrame [x01; x02], DOWNSTREAM);
                        (MkEndFrame, DOWNSTREAM)]
                       (input_side false "unknown" (Some 0))))
     <> [].
Proof. repeat split. discriminate. Qed.

(** C5: on the input side the first EndFrame stops the recorder, once, and
    drops the reference; a second EndFrame changes nothing and calls
    nothing, and no later frame reaches the recorder. *)
Theorem C5_stop_once (self : AudioRecordingProcessor) (r : AudioRecorder)
    (d1 d2 : FrameDirection) (later : list (Frame * FrameDirection)) :
  record_input self = true ->
  recorder self = Some r ->
  let after := state_of (process_frame MkEndFrame d1 self) in
  recorder_calls (trace_of (process_frame MkEndFrame d1 self))
    = [StopRecording r]
  /\ after = set_recorder self None
  /\ process_frame MkEndFrame d2 after =
       (Returned tt, after,
        [Log DEBUG (MsgPushing "EndFrame"); PushFrame MkEndFrame d2])
  /\ stop_calls (trace_of (feed [(MkEndFrame, d1); (MkEndFrame, d2)] self))
       = [StopRecording r]
  /\ filter touches_recorder (trace_of (feed later after)) = []
  /\ recorder_calls (trace_of (feed ((MkEndFrame, d1) :: later) self))
       = [StopRecording r].
Proof.
  intros Hin Hrec after.
  destruct self as [en cid rin rec]. cbn [record_input recorder] in Hin, Hrec.
  subst rin rec.
  assert (Hafter : after = set_recorder
            {| enable_recording := en; client_id := cid;
               record_input := true; recorder := Some r |} None)
    by reflexivity.
  destruct (perform_detached (map deliver later) after
              ltac:(rewrite Hafter; reflexivity)) as [_ Hlater].
  repeat split; try exact Hlater.
  rewrite feed_cons. cbn [trace_of snd].
  unfold recorder_calls. rewrite filter_app.
  fold after. apply recorder_calls_touch in Hlater.
  unfold recorder_calls, feed in *. rewrite Hlater. reflexivity.
Qed.

Lemma C5_stop_once_witness :
  record_input (input_side true "hall" (Some 4)) = true
  /\ recorder (input_side true "hall" (Some 4)) = Some 4
  /\ stop_calls
       (trace_of (feed [(MkEndFrame, DOWNSTREAM); (MkEndFrame, DOWNSTREAM)]
                       (input_side true "hall" (Some 4))))
     = [StopRecording 4].
Proof.
  split; [reflexivity|]. split; [reflexivity|].
  exact (proj1 (proj2 (proj2 (proj2
    (C5_stop_once (input_side true "hall" (Some 4)) 4 DOWNSTREAM DOWNSTREAM
       [(MkInputAudioRawFrame [x07], DOWNSTREAM)] eq_refl eq_refl))))).
Defined.

(** C10: nothing an output-side processor handles changes it, an EndFrame
    included, so it keeps its recorder, and an output or plain audio frame
    that comes after an EndFrame is still recorded as output audio. *)
Theorem C10_output_side_keeps_recorder
    (self : AudioRecordingProcessor) (r : AudioRecorder)
    (before between : list (Frame * FrameDirection))
    (d_end direction : FrameDirection) (audio : bytes) :
  record_input self = false ->
  recorder self = Some r ->
  let late := state_of (feed (before ++ (MkEndFrame, d_end) :: between) self) in
  state_of (process_frame MkEndFrame d_end self) = self
  /\ late = self
  /\ recorder late = Some r
  /\ recorder_calls
       (trace_of (process_frame (MkOutputAudioRawFrame audio) direction late))
     = [RecordOutputAudio r audio]
  /\ recorder_calls
       (trace_of (process_frame (MkAudioRawFrame audio) direction late))
     = [RecordOutputAudio r audio]
  /\ recorder_calls
       (trace_of (feed [(MkEndFrame, d_end);
                        (MkOutputAudioRawFrame audio, direction)] self))
     = [RecordOutputAudio r audio].
Proof.
  intros Hout Hrec late.
  assert (Hlate : late = self).
  { unfold late, feed.
    apply (perform_output_side
             (map deliver (before ++ (MkEndFrame, d_end) :: between)) self Hout). }
  rewrite Hlate.
  destruct self as [en cid rin rec]. cbn [record_input recorder] in Hout, Hrec.
  subst rin rec. repeat split.
Qed.

Lemma C10_output_side_keeps_recorder_witness :
  record_input (output_side true "hall" (Some 2)) = false
  /\ recorder (output_side true "hall" (Some 2)) = Some 2
  /\ recorder_calls
       (trace_of (feed [(MkEndFrame, DOWNSTREAM);
                        (MkOutputAudioRawFrame [x0a; x0b], DOWNSTREAM)]
                       (output_side true "hall" (Some 2))))
     = [RecordOutputAudio 2 [x0a; x0b]].
Proof.
  split; [reflexivity|]. split; [reflexivity|].
  exact (proj2 (proj2 (proj2 (proj2 (proj2
    (C10_output_side_keeps_recorder (output_side true "hall" (Some 2)) 2
       [(MkStartFrame, DOWNSTREAM)] [] DOWNSTREAM DOWNSTREAM [x0a; x0b]
       eq_refl eq_refl)))))).
Defined.

(** C7: for an audio frame of [L] bytes handled with a recorder attached,
    every recorded chunk logs one sample count, and it is [L // 2]: half of
    [L] when [L] is even, [(L - 1) // 2] when odd; nothing raises.  The count
    reaches the log only: apart from the log lines, the calls are the record
    call the routing gives, on the recorder and with the whole byte string of
    the frame, and the push of the frame; which calls are made, and the state
    afterwards, are the same for any other byte string. *)
Theorem C7_sample_count (mk : bytes -> Frame) (audio : bytes)
    (direction : FrameDirection) (self : AudioRecordingProcessor)
    (r : AudioRecorder) :
  In mk audio_constructors ->
  recorder self = Some r ->
  let L := len audio in
  let result := process_frame (mk audio) direction self in
  outcome_of result = Returned tt
  /\ logged_samples (trace_of result)
       = map (fun _ => (L / 2)%Z) (record_calls (trace_of result))
  /\ (2 * (L / 2) <= L < 2 * (L / 2) + 2)%Z
  /\ (Z.even L = true -> (2 * (L / 2) = L)%Z)
  /\ (Z.odd L = true -> (L / 2 = (L - 1) / 2 /\ 2 * (L / 2) = L - 1)%Z)
  /\ without_logs (trace_of result)
     = routed (record_input self) r (mk audio)
         ++ [PushFrame (mk audio) direction]
  /\ (forall other : bytes,
        map shape (trace_of (process_frame (mk other) direction self))
          = map shape (trace_of result)
        /\ state_of (process_frame (mk other) direction self)
          = state_of result).
Proof.
  intros Hmk Hrec L result.
  split; [apply process_frame_returns|].
  split.
  { subst result L. destruct self as [en cid rin rec].
    cbn [recorder] in Hrec. subst rec.
    destruct Hmk as [<-|[<-|[<-|[]]]]; destruct rin; reflexivity. }
  split; [clearbody L; Z.div_mod_to_equations; lia|].
  split.
  { intros Heven. apply Z.even_spec in Heven. destruct Heven as [m Hm].
    clearbody L. Z.div_mod_to_equations. lia. }
  split.
  { intros Hodd. apply Z.odd_spec in Hodd. destruct Hodd as [m Hm].
    clearbody L. Z.div_mod_to_equations. lia. }
  split.
  { subst result L. destruct self as [en cid rin rec].
    cbn [recorder] in Hrec. subst rec.
    destruct Hmk as [<-|[<-|[<-|[]]]]; destruct rin; reflexivity. }
  intros other. subst result. destruct self as [en cid rin rec].
  cbn [recorder] in Hrec. subst rec.
  destruct Hmk as [<-|[<-|[<-|[]]]]; destruct rin; split; reflexivity.
Qed.

Lemma C7_sample_count_witness :
  In MkInputAudioRawFrame audio_constructors
  /\ recorder (input_side true "hall" (Some 0)) = Some 0
  /\ logged_samples
       (trace_of (process_frame (MkInputAudioRawFrame [x01; x02; x03; x04; x05])
                    DOWNSTREAM (input_side true "hall" (Some 0))))
     = [2%Z].
Proof.
  assert (Hin : In MkInputAudioRawFrame audio_constructors)
    by (right; left; reflexivity).
  split; [exact Hin|]. split; [reflexivity|].
  exact (proj1 (proj2
    (C7_sample_count MkInputAudioRawFrame [x01; x02; x03; x04; x05]
       DOWNSTREAM (input_side true "hall" (Some 0)) 0 Hin eq_refl))).
Defined.

(** ** Two processors, one recorder *)

Lemma calls_of_tagged (s s0 : Side) (t : list Event) :
  calls_of s (map (pair s0) t) = if side_eqb s0 s then t else [].
Proof.
  unfold calls_of.
  induction t as [|e t IH]; [destruct (side_eqb s0 s); reflexivity|].
  cbn [map filter fst]. destruct (side_eqb s0 s); cbn [map snd];
    rewrite IH; reflexivity.
Qed.

Lemma calls_of_app (s : Side) (t1 t2 : list (Side * Event)) :
  calls_of s (t1 ++ t2) = calls_of s t1 ++ calls_of s t2.
Proof. unfold calls_of. now rewrite filter_app, map_app. Qed.

Lemma tap_set_tap (s s0 : Side) self p :
  tap s (set_tap s0 self p) = if side_eqb s0 s then self else tap s p.
Proof. destruct s, s0; reflexivity. Qed.

(** Each side of a pipeline runs as if it were alone: its calls and its
    final state are those of its own share of the schedule. *)
Lemma run_project (s : Side) (sched : list (Side * Action)) :
  forall p : Pipeline,
    outcome_of (run sched p) = Returned tt
    /\ tap s (state_of (run sched p))
         = state_of (perform (project s sched) (tap s p))
    /\ calls_of s (trace_of (run sched p))
         = trace_of (perform (project s sched) (tap s p)).
Proof.
  induction sched as [|[s0 a] sched IH]; intros p; [repeat split|].
  pose proof (act_returns a (tap s0 p)) as Hret.
  cbn [run]. destruct (act a (tap s0 p)) as [[o self] t] eqn:Hact.
  cbn in Hret. subst o.
  destruct (IH (set_tap s0 self p)) as [IHo [IHs IHt]].
  destruct (run sched (set_tap s0 self p)) as [[o' p'] t'].
  cbn [outcome_of state_of trace_of fst snd] in *.
  rewrite calls_of_app, calls_of_tagged, IHs, IHt, tap_set_tap.
  unfold project. cbn [filter fst]. fold (project s sched).
  split; [exact IHo|].
  destruct (side_eqb s0 s) eqn:Hs.
  - assert (s0 = s) by (destruct s0, s; congruence || discriminate). subst s0.
    cbn [map snd]. rewrite perform_cons, Hact.
    cbn [state_of trace_of fst snd]. split; reflexivity.
  - split; reflexivity.
Qed.

Lemma stops_with_side_input (t : list (Side * Event)) :
  stop_calls (calls_of OutputSide t) = [] ->
  stops_with_side t = map (pair InputSide) (stop_calls (calls_of InputSide t)).
Proof.
  unfold stops_with_side, stop_calls, calls_of.
  induction t as [|[s e] t IH]; [reflexivity|].
  cbn [filter fst snd map].
  destruct s; cbn [side_eqb map snd filter]; destruct (is_stop e);
    cbn [map]; intros H; try discriminate; rewrite (IH H); reflexivity.
Qed.

(** C6: two processors share the recorder [r].  The input side gets a
    StartFrame, any chunks, an EndFrame and then any number of cleanups; the
    output side gets anything at all, interleaved in any way.  The recorder
    is stopped once, by the input side; the output side never stops it,
    neither on a frame nor on cleanup. *)
Theorem C6_single_stop (p : Pipeline) (r : AudioRecorder)
    (sched : list (Side * Action)) (ds de : FrameDirection)
    (chunks : list (Frame * FrameDirection)) (k : nat) :
  shares p r ->
  project InputSide sched = session ds de chunks k ->
  let result := run sched p in
  outcome_of result = Returned tt
  /\ stops_with_side (trace_of result) = [(InputSide, StopRecording r)]
  /\ stop_calls (calls_of InputSide (trace_of result)) = [StopRecording r]
  /\ stop_calls (calls_of OutputSide (trace_of result)) = []
  /\ recorder (tap InputSide (state_of result)) = None
  /\ tap OutputSide (state_of result) = tap OutputSide p.
Proof.
  intros (Hin & Hout & Hrin & Hrout) Hsession result.
  destruct (run_project InputSide sched p) as [Hret [Hsi Hti]].
  destruct (run_project OutputSide sched p) as [_ [Hso Hto]].
  destruct (perform_output_side (project OutputSide sched) (tap OutputSide p) Hout)
    as [Hkeep Hnostop].
  destruct (perform_input_side (project InputSide sched) (tap InputSide p) r Hin Hrin)
    as [Hstop Hgone].
  assert (Hsome : existsb is_stopper (project InputSide sched) = true).
  { rewrite Hsession. unfold session. cbn [existsb].
    rewrite !existsb_app. cbn. now rewrite orb_true_r. }
  rewrite Hsome in Hstop, Hgone.
  fold result in Hret, Hsi, Hti, Hso, Hto.
  assert (Hi : stop_calls (calls_of InputSide (trace_of result)) = [StopRecording r])
    by now rewrite Hti.
  assert (Ho : stop_calls (calls_of OutputSide (trace_of result)) = [])
    by now rewrite Hto.
  repeat split; try assumption.
  - now rewrite (stops_with_side_input _ Ho), Hi.
  - now rewrite Hsi.
  - now rewrite Hso.
Qed.

Lemma C6_single_stop_witness :
  shares demo_pipeline 0
  /\ project InputSide demo_schedule
       = session DOWNSTREAM DOWNSTREAM
           [(MkInputAudioRawFrame [x01; x02], DOWNSTREAM)] 1
  /\ stops_with_side (trace_of (run demo_schedule demo_pipeline))
       = [(InputSide, StopRecording 0)].
Proof.
  assert (Hshares : shares demo_pipeline 0) by (repeat split).
  split; [exact Hshares|]. split; [reflexivity|].
  exact (proj1 (proj2
    (C6_single_stop demo_pipeline 0 demo_schedule DOWNSTREAM DOWNSTREAM
       [(MkInputAudioRawFrame [x01; x02], DOWNSTREAM)] 1 Hshares eq_refl))).
Defined.

(** ** The recorder over a whole run *)

Lemma filter_none_sub (f g : Event -> bool) (t : list Event) :
  (forall e, f e = true -> g e = true) ->
  filter g t = [] -> filter f t = [].
Proof.
  intros Hsub. induction t as [|e t IH]; [reflexivity|].
  cbn [filter]. destruct (g e) eqn:Hg; [discriminate|].
  destruct (f e) eqn:Hf; [rewrite (Hsub e Hf) in Hg; discriminate|exact IH].
Qed.

Lemma record_calls_touch t :
  filter touches_recorder t = [] -> record_calls t = [].
Proof. apply filter_none_sub. now destruct e. Qed.

Lemma start_calls_touch t :
  filter touches_recorder t = [] -> start_calls t = [].
Proof. apply filter_none_sub. now destruct e. Qed.

Lemma is_new_touch t :
  filter touches_recorder t = [] -> filter is_new t = [].
Proof. apply filter_none_sub. now destruct e. Qed.

(** One action either leaves the processor as it is and stops nothing, or
    stops the recorder it holds, records nothing and lets go of it. *)
Lemma act_step a self :
  let t := trace_of (act a self) in
  filter is_new t = []
  /\ start_calls t = []
  /\ ((state_of (act a self) = self
       /\ stop_calls t = [] /\ recorder_calls t = record_calls t)
      \/ (exists r, recorder self = Some r
            /\ state_of (act a self) = set_recorder self None
            /\ record_calls t = []
            /\ stop_calls t = [StopRecording r]
            /\ recorder_calls t = [StopRecording r])).
Proof.
  destruct a as [frame direction|].
  - destruct frame; destruct self as [en cid [|] [r|]]; cbn;
      (split; [reflexivity|]); (split; [reflexivity|]);
      first [ left; repeat split; reflexivity
            | right; eexists; repeat split; reflexivity ].
  - destruct self as [en cid [|] [r|]]; cbn;
      (split; [reflexivity|]); (split; [reflexivity|]);
      first [ left; repeat split; reflexivity
            | right; eexists; repeat split; reflexivity ].
Qed.

Lemma perform_recorder_calls l : forall self,
  let t := trace_of (perform l self) in
  filter is_new t = []
  /\ start_calls t = []
  /\ recorder_calls t = record_calls t ++ stop_calls t
  /\ (stop_calls t = []
      \/ exists r, recorder self = Some r /\ stop_calls t = [StopRecording r]).
Proof.
  induction l as [|a l IH]; intros self.
  { cbn. repeat split. now left. }
  cbv zeta. rewrite perform_cons. cbn [trace_of snd].
  destruct (act_step a self) as (Hnew & Hstart & Hstep).
  unfold recorder_calls, record_calls, stop_calls, start_calls in *.
  rewrite !filter_app, Hnew, Hstart.
  destruct Hstep as [(Hs & Hstop & Hrec) | (r & Hr & Hs & Hrec & Hstop & Hcalls)].
  - rewrite Hs, Hstop, Hrec.
    destruct (IH self) as (IHnew & IHstart & IHorder & IHstop).
    unfold recorder_calls, record_calls, stop_calls, start_calls in *.
    rewrite IHnew, IHstart, IHorder, app_assoc. repeat split. exact IHstop.
  - rewrite Hs, Hstop, Hrec, Hcalls.
    destruct (perform_detached l (set_recorder self None) eq_refl) as [_ Hnone].
    pose proof (recorder_calls_touch _ Hnone) as H1.
    pose proof (record_calls_touch _ Hnone) as H2.
    pose proof (stop_calls_touch _ Hnone) as H3.
    pose proof (start_calls_touch _ Hnone) as H4.
    pose proof (is_new_touch _ Hnone) as H5.
    unfold recorder_calls, record_calls, stop_calls, start_calls in *.
    rewrite H1, H2, H3, H4, H5. repeat split.
    right. exists r. split; [exact Hr|reflexivity].
Qed.

(** Over any run of frames and cleanups, from any state: the processor
    builds and starts no recorder, every record call comes before the stop,
    and the recorder is stopped at most once, and then it is the one the
    processor held at the start. *)
Theorem recorder_stopped_at_most_once_and_last
    (l : list Action) (self : AudioRecordingProcessor) :
  let t := trace_of (perform l self) in
  filter is_new t = []
  /\ start_calls t = []
  /\ recorder_calls t = record_calls t ++ stop_calls t
  /\ (stop_calls t = []
      \/ exists r, recorder self = Some r /\ stop_calls t = [StopRecording r])
  /\ List.length (stop_calls t) <= 1.
Proof.
  destruct (perform_recorder_calls l self) as (Hnew & Hstart & Horder & Hstop).
  cbv zeta. repeat (split; [assumption|]).
  destruct Hstop as [-> | (r & _ & ->)]; cbn; lia.
Qed.

(** ** What gets recorded *)

Lemma process_frame_records frame direction self :
  record_calls (trace_of (process_frame frame direction self)) =
    match recorder self with
    | Some r => routed (record_input self) r frame
    | None => []
    end.
Proof. by_cases frame self. Qed.

(** An output-side processor with recorder [r] records, in stream order and
    with their bytes, every OutputAudioRawFrame and every plain
    AudioRawFrame of the whole stream, whichever way the frames travel and
    whether or not an EndFrame came before them, and nothing else. *)
Theorem output_side_records_whole_stream
    (self : AudioRecordingProcessor) (r : AudioRecorder)
    (frames : list (Frame * FrameDirection)) :
  record_input self = false ->
  recorder self = Some r ->
  record_calls (trace_of (feed frames self))
    = flat_map (routed false r) (map fst frames).
Proof.
  intros Hout Hrec.
  induction frames as [|[frame direction] frames IH]; [reflexivity|].
  rewrite feed_cons. cbn [trace_of snd map fst flat_map].
  unfold record_calls in *. rewrite filter_app.
  fold (record_calls (trace_of (process_frame frame direction self))).
  rewrite process_frame_records, Hrec, Hout.
  change (process_frame frame direction self)
    with (act (Deliver frame direction) self).
  rewrite act_state, Hout, andb_false_r, IH. reflexivity.
Qed.

Lemma output_side_records_whole_stream_witness :
  record_input (output_side true "hall" (Some 5)) = false
  /\ recorder (output_side true "hall" (Some 5)) = Some 5
  /\ record_calls
       (trace_of (feed [(MkInputAudioRawFrame [x01], DOWNSTREAM);
                        (MkEndFrame, DOWNSTREAM);
                        (MkOutputAudioRawFrame [x02], UPSTREAM)]
                       (output_side true "hall" (Some 5))))
     = [RecordOutputAudio 5 [x02]].
Proof.
  split; [reflexivity|]. split; [reflexivity|].
  exact (output_side_records_whole_stream (output_side true "hall" (Some 5)) 5
           [(MkInputAudioRawFrame [x01], DOWNSTREAM);
            (MkEndFrame, DOWNSTREAM);
            (MkOutputAudioRawFrame [x02], UPSTREAM)] eq_refl eq_refl).
Defined.

(** An input-side processor with recorder [r] records, in stream order and
    with their bytes, the InputAudioRawFrames and plain AudioRawFrames that
    come before the first EndFrame; audio that arrives after it is pushed on
    but not recorded. *)
Theorem input_side_records_until_end
    (self : AudioRecordingProcessor) (r : AudioRecorder)
    (frames : list (Frame * FrameDirection)) :
  record_input self = true ->
  recorder self = Some r ->
  record_calls (trace_of (feed frames self))
    = flat_map (routed true r) (map fst (before_end frames)).
Proof.
  intros Hin Hrec.
  induction frames as [|[frame direction] frames IH]; [reflexivity|].
  rewrite feed_cons. cbn [trace_of snd before_end fst].
  unfold record_calls in *. rewrite filter_app.
  fold (record_calls (trace_of (process_frame frame direction self))).
  rewrite process_frame_records, Hrec, Hin.
  change (process_frame frame direction self)
    with (act (Deliver frame direction) self).
  rewrite act_state, Hrec, Hin. cbn [is_stopper truthy].
  rewrite !andb_true_r.
  destruct (isinstance frame EndFrame) eqn:Hend.
  - destruct (perform_detached (map deliver frames) (set_recorder self None)
                eq_refl) as [_ Hnone].
    apply record_calls_touch in Hnone. unfold record_calls, feed in *.
    rewrite Hnone. destruct frame; try discriminate. reflexivity.
  - cbn [map fst flat_map]. rewrite IH. reflexivity.
Qed.

Lemma input_side_records_until_end_witness :
  record_input (input_side true "hall" (Some 5)) = true
  /\ recorder (input_side true "hall" (Some 5)) = Some 5
  /\ record_calls
       (trace_of (feed [(MkInputAudioRawFrame [x01], DOWNSTREAM);
                        (MkOutputAudioRawFrame [x02], DOWNSTREAM);
                        (MkAudioRawFrame [x03], UPSTREAM);
                        (MkEndFrame, DOWNSTREAM);
                        (MkInputAudioRawFrame [x04], DOWNSTREAM)]
                       (input_side true "hall" (Some 5))))
     = [RecordInputAudio 5 [x01]; RecordInputAudio 5 [x03]].
Proof.
  split; [reflexivity|]. split; [reflexivity|].
  exact (input_side_records_until_end (input_side true "hall" (Some 5)) 5
           [(MkInputAudioRawFrame [x01], DOWNSTREAM);
            (MkOutputAudioRawFrame [x02], DOWNSTREAM);
            (MkAudioRawFrame [x03], UPSTREAM);
            (MkEndFrame, DOWNSTREAM);
            (MkInputAudioRawFrame [x04], DOWNSTREAM)] eq_refl eq_refl).
Defined.

(** ** Order of the calls for one frame *)

(** Whatever the frame and the state, [push_frame] is the last call
    [process_frame] makes, and the only push: logging, the parent's
    handler, recording and stopping all come before the frame moves on. *)
Theorem push_frame_is_last (frame : Frame) (direction : FrameDirection)
    (self : AudioRecordingProcessor) :
  let t := trace_of (process_frame frame direction self) in
  t = removelast t ++ [PushFrame frame direction]
  /\ pushed (removelast t) = [].
Proof. by_cases frame self; split; reflexivity. Qed.

Lemma process_frame_supers frame direction self :
  supers (trace_of (process_frame frame direction self)) =
    if isinstance frame StartFrame then [(frame, direction)] else [].
Proof. by_cases frame self. Qed.

(** The parent's [process_frame] is called for the StartFrames of a stream
    and for no other frame: audio, EndFrame and every other frame bypass the
    parent class and go straight to [push_frame]. *)
Theorem parent_handles_start_frames_only
    (frames : list (Frame * FrameDirection)) :
  forall self : AudioRecordingProcessor,
    supers (trace_of (feed frames self))
      = filter (fun fd => isinstance (fst fd) StartFrame) frames.
Proof.
  induction frames as [|[frame direction] frames IH]; intros self;
    [reflexivity|].
  rewrite feed_cons. cbn [trace_of snd filter fst].
  unfold supers in *. rewrite flat_map_app.
  fold (supers (trace_of (process_frame frame direction self))).
  rewrite process_frame_supers, IH.
  destruct (isinstance frame StartFrame); reflexivity.
Qed.

(** ** What a run leaves of the processor *)

(** No run of frames and cleanups raises, none changes the configuration of
    the processor, and the recorder reference is either kept or dropped: it
    never comes to name another recorder, and once [None] it stays [None]. *)
Theorem configuration_is_kept (l : list Action) :
  forall self : AudioRecordingProcessor,
    let self' := state_of (perform l self) in
    outcome_of (perform l self) = Returned tt
    /\ enable_recording self' = enable_recording self
    /\ client_id self' = client_id self
    /\ record_input self' = record_input self
    /\ (recorder self' = recorder self \/ recorder self' = None)
    /\ (recorder self = None -> recorder self' = None).
Proof.
  induction l as [|a l IH]; intros self.
  { cbn. repeat split; auto. }
  cbv zeta. rewrite perform_cons. cbn [outcome_of state_of fst snd].
  destruct (IH (state_of (act a self))) as (Hret & Hen & Hcid & Hrin & Hrec & Hnone).
  rewrite act_state in *.
  destruct (is_stopper a && truthy (recorder self) && record_input self);
    cbn [set_recorder enable_recording client_id record_input recorder] in *;
    repeat split; auto.
Qed.

(** [cleanup] is idempotent: a second call makes no call at all and leaves
    the processor as the first call left it; on the input side the first
    call drops the recorder, on the output side it keeps it. *)
Theorem cleanup_twice (self : AudioRecordingProcessor) :
  let once := state_of (cleanup self) in
  cleanup once = (Returned tt, once, [])
  /\ recorder once = (if record_input self then None else recorder self)
  /\ trace_of (cleanup self) = stop_calls (trace_of (cleanup self)).
Proof. destruct self as [en cid [|] [r|]]; repeat split. Qed.

(** An EndFrame and [cleanup] do the same to the recorder: the same calls on
    it, and the same processor afterwards, in every state. *)
Theorem end_frame_agrees_with_cleanup (direction : FrameDirection)
    (self : AudioRecordingProcessor) :
  state_of (process_frame MkEndFrame direction self) = state_of (cleanup self)
  /\ recorder_calls (trace_of (process_frame MkEndFrame direction self))
     = trace_of (cleanup self).
Proof. destruct self as [en cid [|] [r|]]; split; reflexivity. Qed.

Lemma cleanup_ends_run l self :
  state_of (perform (l ++ [Cleanup]) self)
    = state_of (cleanup (state_of (perform l self)))
  /\ trace_of (perform (l ++ [Cleanup]) self)
    = trace_of (perform l self) ++ trace_of (cleanup (state_of (perform l self))).
Proof.
  destruct (perform_app l [Cleanup] self) as [Hs Ht].
  rewrite Hs, Ht, perform_cons. cbn [state_of trace_of fst snd perform act ret].
  now rewrite app_nil_r.
Qed.

Lemma input_side_lifetime l self r :
  record_input self = true ->
  recorder self = Some r ->
  recorder_calls (trace_of (perform (l ++ [Cleanup]) self))
    = record_calls (trace_of (perform l self)) ++ [StopRecording r]
  /\ recorder (state_of (perform (l ++ [Cleanup]) self)) = None.
Proof.
  intros Hin Hrec.
  destruct (perform_recorder_calls (l ++ [Cleanup]) self) as (_ & _ & Horder & _).
  destruct (perform_input_side (l ++ [Cleanup]) self r Hin Hrec) as [Hstop Hgone].
  assert (Hsome : existsb is_stopper (l ++ [Cleanup]) = true)
    by (rewrite existsb_app; cbn; now rewrite orb_true_r).
  rewrite Hsome in Hstop, Hgone.
  split; [|exact Hgone].
  rewrite Horder, Hstop. f_equal.
  destruct (cleanup_ends_run l self) as [_ Ht]. rewrite Ht.
  unfold record_calls. rewrite filter_app.
  destruct (state_of (perform l self)) as [en cid [|] [r0|]];
    cbn; now rewrite app_nil_r.
Qed.

(** On the input side, a run that ends with [cleanup] always ends with the
    recorder stopped, exactly once and as the last recorder call, whether or
    not an EndFrame arrived; everything before the stop is a record call of
    the run, and the reference is gone afterwards. *)
Theorem cleanup_guarantees_the_stop (l : list Action)
    (self : AudioRecordingProcessor) (r : AudioRecorder) :
  record_input self = true ->
  recorder self = Some r ->
  recorder_calls (trace_of (perform (l ++ [Cleanup]) self))
    = record_calls (trace_of (perform l self)) ++ [StopRecording r]
  /\ recorder (state_of (perform (l ++ [Cleanup]) self)) = None.
Proof. apply input_side_lifetime. Qed.

Lemma cleanup_guarantees_the_stop_witness :
  record_input (input_side true "hall" (Some 1)) = true
  /\ recorder (input_side true "hall" (Some 1)) = Some 1
  /\ recorder_calls
       (trace_of (perform ([Deliver (MkInputAudioRawFrame [x09]) DOWNSTREAM]
                             ++ [Cleanup])
                          (input_side true "hall" (Some 1))))
     = [RecordInputAudio 1 [x09]; StopRecording 1].
Proof.
  split; [reflexivity|]. split; [reflexivity|].
  exact (proj1 (cleanup_guarantees_the_stop
                  [Deliver (MkInputAudioRawFrame [x09]) DOWNSTREAM]
                  (input_side true "hall" (Some 1)) 1 eq_refl eq_refl)).
Defined.

(** ** From construction to cleanup *)

Lemma cleanup_records_nothing self :
  record_calls (trace_of (cleanup self)) = [].
Proof. destruct self as [en cid [|] [r|]]; reflexivity. Qed.

(** On the input side the record calls of a run are the routing of the
    frames delivered before the first EndFrame or cleanup, all of them on
    the recorder the processor holds. *)
Lemma perform_input_side_records l : forall self r,
  record_input self = true ->
  recorder self = Some r ->
  record_calls (trace_of (perform l self))
    = flat_map (routed true r) (frames_before_stop l).
Proof.
  induction l as [|a l IH]; intros self r Hin Hrec; [reflexivity|].
  rewrite perform_cons. cbn [trace_of snd].
  unfold record_calls in *. rewrite filter_app.
  rewrite act_state, Hrec, Hin. cbn [truthy]. rewrite !andb_true_r.
  destruct a as [frame direction|].
  - cbn [act is_stopper frames_before_stop].
    fold (record_calls (trace_of (process_frame frame direction self))).
    rewrite process_frame_records, Hrec, Hin.
    destruct (isinstance frame EndFrame) eqn:Hend.
    + destruct (perform_detached l (set_recorder self None) eq_refl)
        as [_ Hnone].
      apply record_calls_touch in Hnone. unfold record_calls in Hnone.
      rewrite Hnone. destruct frame; try discriminate. reflexivity.
    + cbn [flat_map]. rewrite (IH self r Hin Hrec). reflexivity.
  - cbn [act is_stopper frames_before_stop flat_map].
    fold (record_calls (trace_of (cleanup self))).
    rewrite cleanup_records_nothing.
    destruct (perform_detached l (set_recorder self None) eq_refl)
      as [_ Hnone].
    apply record_calls_touch in Hnone. unfold record_calls in Hnone.
    rewrite Hnone. reflexivity.
Qed.

(** The whole life of an input-side processor that builds its own recorder:
    the recorder is built, started once with the client id before anything
    else reaches it, fed the record calls of the run, and stopped once at
    the end; these are all the recorder calls there are, and every one of
    them, the record calls included, is on the recorder it built: the
    record calls are the routing of the frames delivered before the first
    EndFrame or cleanup. *)
Theorem own_recorder_started_first_stopped_last
    (cid : option string) (heap : Heap) (l : list Action) :
  let built := __init__ true cid true None heap in
  let self := input_side true (str_or cid "unknown") (Some heap) in
  outcome_of built = Returned self
  /\ recorder_calls (trace_of built ++ trace_of (perform (l ++ [Cleanup]) self))
     = StartRecording heap (str_or cid "unknown")
         :: record_calls (trace_of (perform l self))
         ++ [StopRecording heap]
  /\ record_calls (trace_of (perform l self))
     = flat_map (routed true heap) (frames_before_stop l)
  /\ recorder_calls (trace_of built ++ trace_of (perform (l ++ [Cleanup]) self))
     = StartRecording heap (str_or cid "unknown")
         :: flat_map (routed true heap) (frames_before_stop l)
         ++ [StopRecording heap].
Proof.
  intros built self.
  assert (Hall : recorder_calls
                   (trace_of built ++ trace_of (perform (l ++ [Cleanup]) self))
                 = StartRecording heap (str_or cid "unknown")
                     :: record_calls (trace_of (perform l self))
                     ++ [StopRecording heap]).
  { unfold recorder_calls. rewrite filter_app.
    fold (recorder_calls (trace_of (perform (l ++ [Cleanup]) self))).
    destruct (input_side_lifetime l self heap eq_refl eq_refl) as [Hcalls _].
    rewrite Hcalls. reflexivity. }
  pose proof (perform_input_side_records l self heap eq_refl eq_refl) as Hrec.
  split; [reflexivity|]. split; [exact Hall|]. split; [exact Hrec|].
  rewrite Hall, Hrec. reflexivity.
Qed.

(** An output-side processor built without a shared recorder and with
    recording enabled builds and starts a recorder of its own, and then no
    frame and no cleanup ever stops it: the processor ends every run still
    holding the started recorder. *)
Theorem output_side_own_recorder_never_stopped
    (cid : option string) (heap : Heap) (l : list Action) :
  let built := __init__ true cid false None heap in
  let self := output_side true (str_or cid "unknown") (Some heap) in
  outcome_of built = Returned self
  /\ start_calls (trace_of built)
     = [StartRecording heap (str_or cid "unknown")]
  /\ stop_calls (trace_of (perform l self)) = []
  /\ state_of (perform l self) = self.
Proof.
  intros built self.
  destruct (perform_output_side l self eq_refl) as [Hs Ht].
  repeat split; assumption.
Qed.

(** The two taps of a session built one after the other, the second with
    the first one's recorder as [shared_recorder]: both hold the same
    reference; with recording enabled one recorder is built and started,
    by the first constructor only; with recording disabled none is, and
    both taps are without a recorder. *)
Theorem shared_wiring_starts_once
    (en : bool) (cid_in cid_out : option string) (heap : Heap) :
  let first := __init__ en cid_in true None heap in
  let tap_in := input_side en (str_or cid_in "unknown")
                  (if en then Some heap else None) in
  let second := __init__ en cid_out false (recorder tap_in) (state_of first) in
  let tap_out := output_side en (str_or cid_out "unknown") (recorder tap_in) in
  outcome_of first = Returned tap_in
  /\ outcome_of second = Returned tap_out
  /\ recorder tap_out = recorder tap_in
  /\ filter touches_recorder (trace_of first ++ trace_of second)
     = (if en
        then [NewAudioRecorder heap;
              StartRecording heap (str_or cid_in "unknown")]
        else [])
  /\ filter touches_recorder (trace_of second) = [].
Proof. destruct en; repeat split. Qed.

(** The constructor never leaves the client id empty: a missing or empty
    [client_id] becomes "unknown", any other is kept, and that is the id
    [start_recording] gets. *)
Theorem client_id_is_never_empty
    (en : bool) (cid : option string) (rin : bool)
    (shared : option AudioRecorder) (heap : Heap) :
  let built := __init__ en cid rin shared heap in
  exists self,
    outcome_of built = Returned self
    /\ client_id self <> ""
    /\ (cid = Some (client_id self) \/ client_id self = "unknown")
    /\ Forall (fun e => forall r s, e = StartRecording r s -> s = client_id self)
         (trace_of built)
    /\ (forall s, cid = Some s -> s <> "" -> client_id self = s)
    /\ (cid = None \/ cid = Some "" -> client_id self = "unknown").
Proof.
  assert (Hkept : forall s, cid = Some s -> s <> "" -> str_or cid "unknown" = s).
  { intros s -> Hs. destruct s; [contradiction|reflexivity]. }
  assert (Hdefault : cid = None \/ cid = Some "" -> str_or cid "unknown" = "unknown").
  { intros [-> | ->]; reflexivity. }
  assert (Hne : str_or cid "unknown" <> "")
    by (destruct cid as [[|c s]|]; discriminate).
  assert (Hor : cid = Some (str_or cid "unknown") \/ str_or cid "unknown" = "unknown")
    by (destruct cid as [[|c s]|]; auto).
  destruct en, shared as [r0|]; cbn; eexists; (split; [reflexivity|]);
    cbn [client_id]; (split; [exact Hne|]); (split; [exact Hor|]);
    (split; [|split; [exact Hkept|exact Hdefault]]);
    repeat constructor; intros r s H; try discriminate;
    injection H as _ <-; reflexivity.
Qed.

(** ** Two input sides on one recorder *)

Lemma stops_with_side_length (t : list (Side * Event)) :
  List.length (stops_with_side t)
    = List.length (stop_calls (calls_of InputSide t))
      + List.length (stop_calls (calls_of OutputSide t)).
Proof.
  unfold stops_with_side, stop_calls, calls_of.
  induction t as [|[s e] t IH]; [reflexivity|].
  cbn [filter fst snd map].
  destruct s; cbn [side_eqb map snd filter]; destruct (is_stop e);
    cbn [List.length]; rewrite IH; lia.
Qed.

(** The single stop rests on [record_input], not on sharing: when both
    processors that hold the recorder are input-side and each gets an
    EndFrame or a cleanup, the recorder is stopped twice, once by each. *)
Theorem two_input_sides_stop_twice (p : Pipeline) (r : AudioRecorder)
    (sched : list (Side * Action)) :
  record_input (input_tap p) = true ->
  record_input (output_tap p) = true ->
  recorder (input_tap p) = Some r ->
  recorder (output_tap p) = Some r ->
  existsb is_stopper (project InputSide sched) = true ->
  existsb is_stopper (project OutputSide sched) = true ->
  let t := trace_of (run sched p) in
  stop_calls (calls_of InputSide t) = [StopRecording r]
  /\ stop_calls (calls_of OutputSide t) = [StopRecording r]
  /\ List.length (stops_with_side t) = 2.
Proof.
  intros Hin1 Hin2 Hr1 Hr2 He1 He2 t.
  destruct (run_project InputSide sched p) as (_ & _ & Ht1).
  destruct (run_project OutputSide sched p) as (_ & _ & Ht2).
  destruct (perform_input_side (project InputSide sched) (tap InputSide p) r
              Hin1 Hr1) as [Hs1 _].
  destruct (perform_input_side (project OutputSide sched) (tap OutputSide p) r
              Hin2 Hr2) as [Hs2 _].
  rewrite He1 in Hs1. rewrite He2 in Hs2.
  fold t in Ht1, Ht2.
  assert (H1 : stop_calls (calls_of InputSide t) = [StopRecording r])
    by now rewrite Ht1.
  assert (H2 : stop_calls (calls_of OutputSide t) = [StopRecording r])
    by now rewrite Ht2.
  split; [exact H1|]. split; [exact H2|].
  now rewrite stops_with_side_length, H1, H2.
Qed.

Lemma two_input_sides_stop_twice_witness :
  stops_with_side (trace_of (run twin_schedule twin_pipeline))
    = [(InputSide, StopRecording 7); (OutputSide, StopRecording 7)]
  /\ List.length (stops_with_side (trace_of (run twin_schedule twin_pipeline)))
     = 2.
Proof.
  split; [reflexivity|].
  exact (proj2 (proj2
    (two_input_sides_stop_twice twin_pipeline 7 twin_schedule
       eq_refl eq_refl eq_refl eq_refl eq_refl eq_refl))).
Defined.
